(** * A chess move-validation engine: shallow embedding of [main.py]

    The development follows the layout of the Python module: the piece
    classes with their geometric [move] rules, the [Board] with its grid of
    optional pieces, and the [Game] turn state machine.  Python integers are
    unbounded, hence [Z]; the grid is a list of lists read and written with
    Python's indexing (negative indices count from the end, anything else out
    of range raises [IndexError]); exceptions are explicit results. *)

From Stdlib Require Import ZArith String Bool Lia.
From stdpp Require Import base list.

Local Open Scope string_scope.
Local Open Scope Z_scope.

(** ** Exceptions and results *)

(** The exceptions the module can raise: the FastAPI [HTTPException] raised
    by the board on purpose, and the interpreter's own errors. *)
Inductive exn : Type :=
| HTTPException (status_code : Z) (detail : string)
| IndexError
| TypeError
| AttributeError.

Inductive result (A : Type) : Type :=
| Return (a : A)
| Raise (e : exn).
Arguments Return {A} a.
Arguments Raise {A} e.

#[global] Instance result_ret : MRet result := fun A a => Return a.
#[global] Instance result_bind : MBind result := fun A B k m =>
  match m with
  | Return a => k a
  | Raise e => Raise e
  end.

(** The four failures of the board, named after the error kinds of the
    specification and carrying the status and message of the source. *)
Definition OutOfBounds : exn :=
  HTTPException 400 "Piece cannot move outside the board!".
Definition FriendlyFire : exn :=
  HTTPException 400
    "There is a piece of the same color at the destination position!".
Definition IllegalGeometry : exn := HTTPException 400 "Invalid move!".
Definition EmptySource : exn :=
  HTTPException 404 "No piece at the specified position!".

(** ** Python list indexing *)

Module Py.

(** [l[i]] resolves [i] against [len(l)]: [0 <= i < len] is the index
    itself, [-len <= i < 0] counts from the end, the rest is out of range. *)
Definition index (len : nat) (i : Z) : option nat :=
  if (0 <=? i) && (i <? Z.of_nat len) then Some (Z.to_nat i)
  else if (- Z.of_nat len <=? i) && (i <? 0)
       then Some (Z.to_nat (Z.of_nat len + i))
       else None.

Definition getitem {A : Type} (l : list A) (i : Z) : result A :=
  match index (length l) i with
  | Some n =>
      match l !! n with
      | Some x => Return x
      | None => Raise IndexError
      end
  | None => Raise IndexError
  end.

Definition setitem {A : Type} (l : list A) (i : Z) (v : A)
  : result (list A) :=
  match index (length l) i with
  | Some n => Return (<[n := v]> l)
  | None => Raise IndexError
  end.

End Py.

(** ** Pieces *)

Inductive PieceKind : Type := King | Queen | Rook | Bishop | Knight | Pawn.

(** An instance of one of the piece classes: its class and its [color]. *)
Record Piece : Type := mkPiece { kind : PieceKind; color : string }.

Definition Position : Type := (Z * Z)%type.

(** [Piece.__init__(self, color)] is the only constructor: every class
    inherits it, so a call needs exactly one argument. *)
Definition Piece_new (k : PieceKind) (args : list string) : result Piece :=
  match args with
  | [c] => Return (mkPiece k c)
  | _ => Raise TypeError
  end.

Definition King_move (position_from position_to : Position) : bool :=
  let '(from_x, from_y) := position_from in
  let '(to_x, to_y) := position_to in
  (Z.abs (from_x - to_x) <=? 1) && (Z.abs (from_y - to_y) <=? 1).

Definition Rook_move (position_from position_to : Position) : bool :=
  let '(from_x, from_y) := position_from in
  let '(to_x, to_y) := position_to in
  (from_x =? to_x) || (from_y =? to_y).

Definition Knight_move (position_from position_to : Position) : bool :=
  let '(from_x, from_y) := position_from in
  let '(to_x, to_y) := position_to in
  let dx := Z.abs (from_x - to_x) in
  let dy := Z.abs (from_y - to_y) in
  ((dx =? 2) && (dy =? 1)) || ((dx =? 1) && (dy =? 2)).

Definition Bishop_move (position_from position_to : Position) : bool :=
  let '(from_x, from_y) := position_from in
  let '(to_x, to_y) := position_to in
  Z.abs (from_x - to_x) =? Z.abs (from_y - to_y).

(** [Rook().move(..) or Bishop().move(..)]: both operands build a piece
    with no argument before asking it; [or] evaluates the right operand only
    when the left one is false. *)
Definition Queen_move (position_from position_to : Position) : result bool :=
  r ← Piece_new Rook [];
  let by_rook := Rook_move position_from position_to in
  if by_rook then Return true
  else
    b ← Piece_new Bishop [];
    Return (Bishop_move position_from position_to).

Definition Pawn_move (position_from position_to : Position) : bool :=
  let '(from_x, from_y) := position_from in
  let '(to_x, to_y) := position_to in
  (from_x =? to_x) && (Z.abs (from_y - to_y) =? 1).

(** [piece.move(position_from, position_to)], dispatched on the class. *)
Definition move (piece : Piece) (position_from position_to : Position)
  : result bool :=
  match kind piece with
  | King => Return (King_move position_from position_to)
  | Rook => Return (Rook_move position_from position_to)
  | Knight => Return (Knight_move position_from position_to)
  | Bishop => Return (Bishop_move position_from position_to)
  | Queen => Queen_move position_from position_to
  | Pawn => Return (Pawn_move position_from position_to)
  end.

(** [piece.__class__.__name__] *)
Definition class_name (k : PieceKind) : string :=
  match k with
  | King => "King"
  | Queen => "Queen"
  | Rook => "Rook"
  | Bishop => "Bishop"
  | Knight => "Knight"
  | Pawn => "Pawn"
  end.

(** ** The board *)

Abbreviation Occupant := (option Piece).
Abbreviation Board := (list (list Occupant)).

Definition back_rank (c : string) : list Occupant :=
  [Some (mkPiece Rook c); Some (mkPiece Knight c); Some (mkPiece Bishop c);
   Some (mkPiece Queen c); Some (mkPiece King c); Some (mkPiece Bishop c);
   Some (mkPiece Knight c); Some (mkPiece Rook c)].

(** [Board.__init__]: the empty grid, then [initialize_board] replaces rows
    0, 1, 6 and 7. *)
Definition empty_grid : Board := replicate 8 (replicate 8 None).

Definition initialize_board (b : Board) : Board :=
  let b := <[0%nat := back_rank "black"]> b in
  let b := <[1%nat := replicate 8 (Some (mkPiece Pawn "black"))]> b in
  let b := <[6%nat := replicate 8 (Some (mkPiece Pawn "white"))]> b in
  <[7%nat := back_rank "white"]> b.

Definition Board_init : Board := initialize_board empty_grid.

(** [self.board[position[0]][position[1]]] *)
Definition get_piece_at (b : Board) (position : Position) : result Occupant :=
  row ← Py.getitem b (fst position);
  Py.getitem row (snd position).

(** [self.board[position[0]][position[1]] = v]: the row is fetched, then
    updated in place; rows are distinct lists, so only that row changes. *)
Definition set_piece_at (b : Board) (position : Position) (v : Occupant)
  : result Board :=
  row ← Py.getitem b (fst position);
  row' ← Py.setitem row (snd position) v;
  Py.setitem b (fst position) row'.

Definition in_bounds (position : Position) : bool :=
  let '(x, y) := position in
  ((0 <=? x) && (x <? 8)) && ((0 <=? y) && (y <? 8)).

(** [piece] may be [None] here ([Game.validate_move] passes whatever the
    source cell holds); attribute access on [None] raises. *)
Definition is_valid_move (b : Board) (piece : Occupant)
    (position_from position_to : Position) : result bool :=
  if negb (in_bounds position_to) then Raise OutOfBounds
  else
    target ← get_piece_at b position_to;
    same ← match target with
           | None => Return false
           | Some t =>
               match piece with
               | Some p => Return (String.eqb (color t) (color p))
               | None => Raise AttributeError
               end
           end;
    if (same : bool) then Raise FriendlyFire
    else
      match piece with
      | Some p => move p position_from position_to
      | None => Raise AttributeError
      end.

(** Board methods that may both raise and mutate the grid thread the grid
    through: an exception leaves whatever was written before it. *)
Definition BoardM (A : Type) : Type := Board -> result A * Board.

#[global] Instance BoardM_ret : MRet BoardM := fun A a b => (Return a, b).
#[global] Instance BoardM_bind : MBind BoardM := fun A B k m b =>
  match m b with
  | (Return a, b') => k a b'
  | (Raise e, b') => (Raise e, b')
  end.

Definition raise_b {A : Type} (e : exn) : BoardM A := fun b => (Raise e, b).
Definition read_b {A : Type} (f : Board -> result A) : BoardM A :=
  fun b => (f b, b).
Definition write_b (position : Position) (v : Occupant) : BoardM unit :=
  fun b =>
    match set_piece_at b position v with
    | Return b' => (Return tt, b')
    | Raise e => (Raise e, b)
    end.

Definition move_piece (position_from position_to : Position) : BoardM bool :=
  piece ← read_b (fun b => get_piece_at b position_from);
  match piece with
  | Some p =>
      ok ← read_b (fun b => is_valid_move b (Some p) position_from position_to);
      if (ok : bool) then
        write_b position_to (Some p);;
        write_b position_from None;;
        mret true
      else raise_b IllegalGeometry
  | None => raise_b EmptySource
  end.

(** [serialize_board]: both loops append to a list that starts empty. *)
Definition serialize_cell (piece : Occupant) : option string :=
  match piece with
  | Some p => Some (class_name (kind p))
  | None => None
  end.

Definition serialize_row (row : list Occupant) : list (option string) :=
  fold_left (fun serialized_row piece => (serialized_row ++ [serialize_cell piece])%list)
            row [].

Definition serialize_board (b : Board) : list (list (option string)) :=
  fold_left (fun serialized_board row => (serialized_board ++ [serialize_row row])%list)
            b [].

(** ** The game *)

Record Game : Type := mkGame { board : Board; current_player : string }.

Definition Game_init : Game := mkGame Board_init "white".

(** [Game.move]: three ways to return ([True], [False], or falling off the
    end, which is [None]) and one way to raise (whatever [move_piece] raised
    that is not an [HTTPException]). *)
Definition Game_move (g : Game) (player : string)
    (position_from position_to : Position) : result (option bool) * Game :=
  if String.eqb player (current_player g) then
    match move_piece position_from position_to (board g) with
    | (Return moved, b') =>
        if (moved : bool) then
          (Return (Some true),
           mkGame b' (if String.eqb player "white" then "black" else "white"))
        else (Return None, mkGame b' (current_player g))
    | (Raise (HTTPException _ _), b') =>
        (Return (Some false), mkGame b' (current_player g))
    | (Raise e, b') => (Raise e, mkGame b' (current_player g))
    end
  else (Return (Some false), g).

(** A move request as the transport shell hands it over. *)
Definition Request : Type := (string * Position * Position)%type.

Definition step (g : Game) (rq : Request) : Game :=
  let '(player, position_from, position_to) := rq in
  snd (Game_move g player position_from position_to).

(** The game after a sequence of requests, whatever their outcomes. *)
Definition run (rqs : list Request) (g : Game) : Game := fold_left step rqs g.

(** ** Quantities the properties are stated with *)

Definition occupied (c : Occupant) : nat :=
  match c with
  | Some _ => 1%nat
  | None => 0%nat
  end.

(** The number of non-empty cells of the grid. *)
Definition count_occupants (b : Board) : nat :=
  sum_list_with (sum_list_with occupied) b.

(** An 8x8 grid. *)
Definition board_shape (b : Board) : Prop :=
  length b = 8%nat /\ Forall (fun row => length row = 8%nat) b.

(** [position] resolves on [b] to row [i] (which is the list [row]) and
    column [j]. *)
Definition at_cell (b : Board) (position : Position)
    (i j : nat) (row : list Occupant) : Prop :=
  Py.index (length b) (fst position) = Some i /\
  b !! i = Some row /\
  Py.index (length row) (snd position) = Some j.

(** What a call of [move_piece] takes off the board: one piece when it
    succeeds onto an occupied cell, nothing otherwise. *)
Definition captured (position_from position_to : Position) (b : Board) : nat :=
  match fst (move_piece position_from position_to b),
        get_piece_at b position_to with
  | Return true, Return (Some _) => 1%nat
  | _, _ => 0%nat
  end.

(** The two turn states the game is meant to be in. *)
Definition LightToMove (g : Game) : Prop := current_player g = "white".
Definition DarkToMove (g : Game) : Prop := current_player g = "black".

(** The game is in one of them. *)
Definition turn_inv (g : Game) : Prop := LightToMove g \/ DarkToMove g.

(** Cells that hold pieces of the same class, whatever their colors. *)
Definition same_kind (c1 c2 : Occupant) : Prop :=
  match c1, c2 with
  | None, None => True
  | Some p1, Some p2 => kind p1 = kind p2
  | _, _ => False
  end.

(** The geometric rules as the contract table words them, over
    [dx = |from.rank - to.rank|] and [dy = |from.file - to.file|]. *)
Module Table.

Definition dx (f t : Position) : Z := Z.abs (fst f - fst t).
Definition dy (f t : Position) : Z := Z.abs (snd f - snd t).

Definition rook (f t : Position) : Prop := fst f = fst t \/ snd f = snd t.
Definition bishop (f t : Position) : Prop := dx f t = dy f t.

Definition legal (k : PieceKind) (f t : Position) : Prop :=
  match k with
  | King => dx f t <= 1 /\ dy f t <= 1
  | Rook => rook f t
  | Bishop => bishop f t
  | Knight => (dx f t = 2 /\ dy f t = 1) \/ (dx f t = 1 /\ dy f t = 2)
  | Queen => rook f t \/ bishop f t
  | Pawn => fst f = fst t /\ dy f t = 1
  end.

End Table.

(** ** The rest of the game's interface *)

(** [Game.validate_move]: the check of [move_piece] without the move.  The
    [player] is not looked at; the source cell's content, empty or not, goes
    to [is_valid_move]; an [HTTPException] becomes [False]. *)
Definition validate_move (g : Game) (player : string)
    (position_from position_to : Position) : result bool :=
  match (piece ← get_piece_at (board g) position_from;
         is_valid_move (board g) piece position_from position_to) with
  | Raise (HTTPException _ _) => Return false
  | r => r
  end.

(** The number of pieces of color [c] on the grid. *)
Definition of_color (c : string) (o : Occupant) : nat :=
  match o with
  | Some p => if String.eqb (color p) c then 1%nat else 0%nat
  | None => 0%nat
  end.

Definition count_color (c : string) (b : Board) : nat :=
  sum_list_with (sum_list_with (of_color c)) b.

(** Both coordinates are indices of an 8-element list, counted from either
    end. *)
Definition indexable (position : Position) : Prop :=
  -8 <= fst position < 8 /\ -8 <= snd position < 8.

(** Both coordinates name a rank and a file of the board. *)
Definition on_board (position : Position) : Prop :=
  0 <= fst position < 8 /\ 0 <= snd position < 8.

(** How many of the requests [Game.move] answered with [True], when they
    are made one after the other starting from [g]. *)
Fixpoint successes (rqs : list Request) (g : Game) : nat :=
  match rqs with
  | [] => 0%nat
  | rq :: rest =>
      let '(player, position_from, position_to) := rq in
      match fst (Game_move g player position_from position_to) with
      | Return (Some true) => S (successes rest (step g rq))
      | _ => successes rest (step g rq)
      end
  end.

(** ** Python indexing: what a successful read or write pins down *)

Section Indexing.

Context {A : Type}.
Implicit Types (l : list A) (i : Z) (n : nat).

Lemma index_lt (len : nat) i n : Py.index len i = Some n -> (n < len)%nat.
Proof.
  unfold Py.index.
  destruct ((0 <=? i) && (i <? Z.of_nat len)) eqn:E1.
  - intros [= <-]. apply andb_prop in E1 as [H1 H2]. lia.
  - destruct ((- Z.of_nat len <=? i) && (i <? 0)) eqn:E2; [|discriminate].
    intros [= <-]. apply andb_prop in E2 as [H1 H2]. lia.
Qed.

Lemma index_nonneg (len : nat) i :
  0 <= i < Z.of_nat len -> Py.index len i = Some (Z.to_nat i).
Proof.
  intros H. unfold Py.index.
  replace ((0 <=? i) && (i <? Z.of_nat len)) with true; [done|].
  symmetry. apply andb_true_intro. split; lia.
Qed.

Lemma getitem_Return l i x :
  Py.getitem l i = Return x <->
  exists n, Py.index (length l) i = Some n /\ l !! n = Some x.
Proof.
  unfold Py.getitem. split.
  - destruct (Py.index (length l) i) as [n|]; [|discriminate].
    destruct (l !! n) eqn:E; [|discriminate].
    intros [= <-]. eauto.
  - intros (n & -> & ->). reflexivity.
Qed.

Lemma setitem_index l i n v :
  Py.index (length l) i = Some n -> Py.setitem l i v = Return (<[n := v]> l).
Proof. unfold Py.setitem. intros ->. reflexivity. Qed.

Lemma sum_list_with_insert (f : A -> nat) l n x y :
  l !! n = Some x ->
  (sum_list_with f (<[n := y]> l) + f x = sum_list_with f l + f y)%nat.
Proof.
  revert n. induction l as [|a l IH]; intros [|n] H; simpl in *;
    try discriminate.
  - injection H as ->. lia.
  - specialize (IH n H). lia.
Qed.

End Indexing.

(** ** Cells of the grid *)

Lemma get_piece_at_Return b position v :
  get_piece_at b position = Return v <->
  exists i j row, at_cell b position i j row /\ row !! j = Some v.
Proof.
  unfold get_piece_at, at_cell. split.
  - destruct (Py.getitem b (fst position)) as [row|] eqn:E; [|discriminate].
    simpl. intros H.
    apply getitem_Return in E as (i & Hi & Hrow).
    apply getitem_Return in H as (j & Hj & Hv).
    exists i, j, row. auto.
  - intros (i & j & row & (Hi & Hrow & Hj) & Hv).
    assert (Py.getitem b (fst position) = Return row) as ->
      by (apply getitem_Return; eauto).
    simpl. apply getitem_Return. eauto.
Qed.

Lemma set_piece_at_cell b position v i j row :
  at_cell b position i j row ->
  set_piece_at b position v = Return (<[i := <[j := v]> row]> b).
Proof.
  intros (Hi & Hrow & Hj). unfold set_piece_at.
  assert (Py.getitem b (fst position) = Return row) as ->
    by (apply getitem_Return; eauto).
  simpl. rewrite (setitem_index _ _ _ _ Hj). simpl.
  apply setitem_index, Hi.
Qed.

(** Writing one cell keeps every position resolving where it did. *)
Lemma at_cell_insert b position i j row i' j' row' w :
  b !! i' = Some row' ->
  at_cell b position i j row ->
  at_cell (<[i' := <[j' := w]> row']> b) position i j
          (if decide (i' = i) then <[j' := w]> row else row).
Proof.
  intros Hrow' (Hi & Hrow & Hj). unfold at_cell.
  rewrite length_insert. split; [exact Hi|].
  destruct (decide (i' = i)) as [->|Hne].
  - assert (row' = row) as -> by congruence.
    rewrite list_lookup_insert_eq by (eapply lookup_lt_Some; eauto).
    rewrite length_insert. auto.
  - rewrite list_lookup_insert_ne by done. auto.
Qed.

Lemma count_occupants_insert b i j row old w :
  b !! i = Some row -> row !! j = Some old ->
  (count_occupants (<[i := <[j := w]> row]> b) + occupied old
   = count_occupants b + occupied w)%nat.
Proof.
  intros Hrow Hold. unfold count_occupants.
  pose proof (sum_list_with_insert (sum_list_with occupied) b i row
                (<[j := w]> row) Hrow) as H1.
  pose proof (sum_list_with_insert occupied row j old w Hold) as H2.
  lia.
Qed.

(** ** [is_valid_move] and [move_piece], case by case *)

Lemma is_valid_move_true b p position_from position_to :
  is_valid_move b (Some p) position_from position_to = Return true ->
  in_bounds position_to = true /\
  exists d, get_piece_at b position_to = Return d /\
            (forall q, d = Some q -> color q <> color p) /\
            move p position_from position_to = Return true.
Proof.
  unfold is_valid_move.
  destruct (in_bounds position_to); [|discriminate]. simpl.
  destruct (get_piece_at b position_to) as [[q|]|]; simpl; try discriminate.
  - destruct (String.eqb (color q) (color p)) eqn:E; [discriminate|].
    intros H. split; [done|]. exists (Some q). repeat split; [|done].
    intros q' [= <-]. by apply String.eqb_neq.
  - intros H. split; [done|]. exists None. repeat split; done.
Qed.

Lemma move_piece_unfold position_from position_to b :
  move_piece position_from position_to b =
  match get_piece_at b position_from with
  | Raise e => (Raise e, b)
  | Return None => (Raise EmptySource, b)
  | Return (Some p) =>
      match is_valid_move b (Some p) position_from position_to with
      | Raise e => (Raise e, b)
      | Return false => (Raise IllegalGeometry, b)
      | Return true =>
          match set_piece_at b position_to (Some p) with
          | Raise e => (Raise e, b)
          | Return b1 =>
              match set_piece_at b1 position_from None with
              | Raise e => (Raise e, b1)
              | Return b2 => (Return true, b2)
              end
          end
      end
  end.
Proof.
  unfold move_piece, mbind, BoardM_bind, read_b, write_b, raise_b.
  destruct (get_piece_at b position_from) as [[p|]|]; try reflexivity.
  destruct (is_valid_move b (Some p) position_from position_to) as [[|]|];
    try reflexivity.
  destruct (set_piece_at b position_to (Some p)) as [b1|]; try reflexivity.
  destruct (set_piece_at b1 position_from None); reflexivity.
Qed.

(** Once the source holds a piece and validation says yes, both writes go
    through: the destination was read by the validation and the source by
    the lookup, and a write resolves its position as a read does. *)
Lemma move_piece_valid b position_from position_to p :
  get_piece_at b position_from = Return (Some p) ->
  is_valid_move b (Some p) position_from position_to = Return true ->
  exists d i j row i' j' row',
    get_piece_at b position_to = Return d /\
    b !! i = Some row /\ row !! j = Some (Some p) /\
    b !! i' = Some row' /\ row' !! j' = Some d /\
    (i', j') <> (i, j) /\
    move_piece position_from position_to b =
      (Return true,
       <[i := <[j := None]> (if decide (i' = i)
                             then <[j' := Some p]> row else row)]>
         (<[i' := <[j' := Some p]> row']> b)).
Proof.
  intros Hfrom Hvalid.
  pose proof (is_valid_move_true _ _ _ _ Hvalid) as (_ & d & Hto & Hcol & _).
  pose proof Hfrom as (i & j & row & Hc & Hv)%get_piece_at_Return.
  pose proof Hto as (i' & j' & row' & Hc' & Hv')%get_piece_at_Return.
  exists d, i, j, row, i', j', row'.
  pose proof Hc as (_ & Hrow & _). pose proof Hc' as (_ & Hrow' & _).
  repeat split; try assumption.
  - intros [= -> ->]. assert (row' = row) as -> by congruence.
    rewrite Hv in Hv'. injection Hv' as <-. by eapply Hcol.
  - rewrite move_piece_unfold, Hfrom, Hvalid.
    rewrite (set_piece_at_cell _ _ _ _ _ _ Hc').
    rewrite (set_piece_at_cell _ _ _ _ _ _
               (at_cell_insert _ _ _ _ _ _ _ _ (Some p) Hrow' Hc)).
    reflexivity.
Qed.

(** A call that does not return [True] leaves the grid as it found it. *)
Lemma move_piece_unchanged position_from position_to b :
  fst (move_piece position_from position_to b) <> Return true ->
  snd (move_piece position_from position_to b) = b.
Proof.
  intros Hfail.
  destruct (get_piece_at b position_from) as [[p|]|] eqn:Hfrom;
    try (rewrite move_piece_unfold, Hfrom; reflexivity).
  destruct (is_valid_move b (Some p) position_from position_to)
    as [[|]|] eqn:Hvalid;
    try (rewrite move_piece_unfold, Hfrom, Hvalid; reflexivity).
  destruct (move_piece_valid _ _ _ _ Hfrom Hvalid)
    as (d & i & j & row & i' & j' & row' & _ & _ & _ & _ & _ & _ & Hmove).
  rewrite Hmove in Hfail. simpl in Hfail. congruence.
Qed.

(** What each call does to the number of pieces. *)
Lemma move_piece_count position_from position_to b :
  (count_occupants (snd (move_piece position_from position_to b))
   + captured position_from position_to b = count_occupants b)%nat.
Proof.
  unfold captured.
  destruct (get_piece_at b position_from) as [[p|]|] eqn:Hfrom;
    try (rewrite move_piece_unfold, Hfrom; simpl; lia).
  destruct (is_valid_move b (Some p) position_from position_to)
    as [[|]|] eqn:Hvalid;
    try (rewrite move_piece_unfold, Hfrom, Hvalid; simpl; lia).
  destruct (move_piece_valid _ _ _ _ Hfrom Hvalid)
    as (d & i & j & row & i' & j' & row' &
        Hto & Hrow & Hp & Hrow' & Hd & Hne & Hmove).
  rewrite Hmove, Hto. simpl.
  set (b1 := <[i' := <[j' := Some p]> row']> b).
  set (row1 := if decide (i' = i) then <[j' := Some p]> row else row).
  assert (b1 !! i = Some row1) as Hrow1.
  { subst b1 row1. destruct (decide (i' = i)) as [->|Hi].
    - assert (row' = row) as -> by congruence.
      apply list_lookup_insert_eq. eapply lookup_lt_Some; eauto.
    - rewrite list_lookup_insert_ne by done. exact Hrow. }
  assert (row1 !! j = Some (Some p)) as Hp1.
  { subst row1. destruct (decide (i' = i)) as [->|Hi]; [|exact Hp].
    rewrite list_lookup_insert_ne; [exact Hp|]. congruence. }
  pose proof (count_occupants_insert b i' j' row' d (Some p) Hrow' Hd) as H1.
  pose proof (count_occupants_insert b1 i j row1 (Some p) None Hrow1 Hp1) as H2.
  fold b1 in H1. simpl in H1, H2.
  destruct d as [q|]; simpl in *; lia.
Qed.

(** ** The shape of the grid is kept *)

Lemma setitem_length {A : Type} (l l' : list A) i v :
  Py.setitem l i v = Return l' -> length l' = length l.
Proof.
  unfold Py.setitem. destruct (Py.index (length l) i); [|discriminate].
  intros [= <-]. apply length_insert.
Qed.

Lemma set_piece_at_shape b position v b' :
  set_piece_at b position v = Return b' -> board_shape b -> board_shape b'.
Proof.
  unfold set_piece_at, board_shape.
  destruct (Py.getitem b (fst position)) as [row|] eqn:Hrow; [|discriminate].
  simpl.
  destruct (Py.setitem row (snd position) v) as [row'|] eqn:Hrow';
    [|discriminate].
  simpl. unfold Py.setitem.
  destruct (Py.index (length b) (fst position)) as [n|]; [|discriminate].
  intros [= <-] [Hlen Hrows].
  apply getitem_Return in Hrow as (m & _ & Hm).
  apply setitem_length in Hrow'.
  split; [by rewrite length_insert|].
  apply Forall_insert; [exact Hrows|].
  rewrite Hrow'. eapply Forall_lookup_1 in Hrows; eauto.
Qed.

Lemma move_piece_shape position_from position_to b :
  board_shape b -> board_shape (snd (move_piece position_from position_to b)).
Proof.
  intros Hb. rewrite move_piece_unfold.
  destruct (get_piece_at b position_from) as [[p|]|]; try exact Hb.
  destruct (is_valid_move b (Some p) position_from position_to) as [[|]|];
    try exact Hb.
  destruct (set_piece_at b position_to (Some p)) as [b1|] eqn:H1;
    [|exact Hb].
  pose proof (set_piece_at_shape _ _ _ _ H1 Hb) as Hb1.
  destruct (set_piece_at b1 position_from None) as [b2|] eqn:H2;
    [|exact Hb1].
  exact (set_piece_at_shape _ _ _ _ H2 Hb1).
Qed.

Lemma Board_init_shape : board_shape Board_init.
Proof. split; [reflexivity|]. repeat constructor. Qed.

(** ** The turn state machine *)

Lemma Game_move_wrong_turn g player position_from position_to :
  player <> current_player g ->
  Game_move g player position_from position_to = (Return (Some false), g).
Proof.
  intros Hne. unfold Game_move.
  apply String.eqb_neq in Hne. rewrite Hne. reflexivity.
Qed.

Lemma Game_move_unchanged g player position_from position_to :
  fst (Game_move g player position_from position_to) <> Return (Some true) ->
  snd (Game_move g player position_from position_to) = g.
Proof.
  unfold Game_move.
  destruct (String.eqb player (current_player g)); [|reflexivity].
  pose proof (move_piece_unchanged position_from position_to (board g)) as Hb.
  destruct (move_piece position_from position_to (board g)) as [r b'].
  simpl in Hb.
  destruct r as [[|]|e]; simpl; intros H.
  - congruence.
  - rewrite Hb by discriminate. by destruct g.
  - assert (b' = board g) as -> by (apply Hb; discriminate).
    destruct e; by destruct g.
Qed.

Lemma Game_move_flips g player position_from position_to :
  turn_inv g ->
  fst (Game_move g player position_from position_to) = Return (Some true) ->
  (LightToMove g /\ DarkToMove (snd (Game_move g player position_from position_to)))
  \/
  (DarkToMove g /\ LightToMove (snd (Game_move g player position_from position_to))).
Proof.
  unfold turn_inv, LightToMove, DarkToMove, Game_move.
  destruct (String.eqb player (current_player g)) eqn:E; [|discriminate].
  apply String.eqb_eq in E. subst player.
  destruct (move_piece position_from position_to (board g)) as [r b'].
  destruct r as [[|]|e]; simpl; try discriminate.
  - intros [H|H] _; rewrite H; simpl; auto.
  - destruct e; discriminate.
Qed.

Lemma result_eq_dec_true (r : result (option bool)) :
  {r = Return (Some true)} + {r <> Return (Some true)}.
Proof.
  destruct r as [[[|]|]|e]; (by left) || (right; discriminate).
Qed.

Lemma Game_move_turn_inv g player position_from position_to :
  turn_inv g -> turn_inv (snd (Game_move g player position_from position_to)).
Proof.
  intros Hg.
  destruct (result_eq_dec_true
              (fst (Game_move g player position_from position_to)))
    as [Hs|Hf].
  - destruct (Game_move_flips _ _ _ _ Hg Hs) as [[_ H]|[_ H]];
      [right|left]; exact H.
  - by rewrite Game_move_unchanged.
Qed.

Lemma run_turn_inv rqs g : turn_inv g -> turn_inv (run rqs g).
Proof.
  revert g. induction rqs as [|[[player f] t] rqs IH]; intros g Hg; [exact Hg|].
  apply IH. by apply Game_move_turn_inv.
Qed.

Lemma Game_move_shape g player position_from position_to :
  board_shape (board g) ->
  board_shape (board (snd (Game_move g player position_from position_to))).
Proof.
  intros Hg. unfold Game_move.
  destruct (String.eqb player (current_player g)); [|exact Hg].
  pose proof (move_piece_shape position_from position_to _ Hg) as Hb.
  destruct (move_piece position_from position_to (board g)) as [r b'].
  destruct r as [[|]|e]; [| |destruct e]; exact Hb.
Qed.

Lemma run_shape rqs g : board_shape (board g) -> board_shape (board (run rqs g)).
Proof.
  revert g. induction rqs as [|[[player f] t] rqs IH]; intros g Hg; [exact Hg|].
  apply IH. by apply Game_move_shape.
Qed.

(** ** Serialization: the two loops are maps *)

Lemma fold_left_append {A B : Type} (f : A -> B) (l : list A) (acc : list B) :
  fold_left (fun acc x => (acc ++ [f x])%list) l acc = (acc ++ (f <$> l))%list.
Proof.
  revert acc. induction l as [|x l IH]; intros acc; csimpl.
  - by rewrite app_nil_r.
  - rewrite IH, <- app_assoc. reflexivity.
Qed.

Lemma serialize_row_fmap row : serialize_row row = serialize_cell <$> row.
Proof. unfold serialize_row. by rewrite fold_left_append. Qed.

Lemma serialize_board_fmap (b : Board) :
  serialize_board b = fmap (M := list) serialize_cell <$> b.
Proof.
  unfold serialize_board. rewrite fold_left_append. simpl.
  apply list_fmap_ext. intros _ row _. apply serialize_row_fmap.
Qed.

Lemma serialize_cell_same_kind c1 c2 :
  same_kind c1 c2 -> serialize_cell c1 = serialize_cell c2.
Proof.
  destruct c1 as [p1|], c2 as [p2|]; simpl; try done.
  by intros ->.
Qed.

(** ** The geometric rules *)

Lemma abs_sub_swap (a b : Z) : Z.abs (a - b) = Z.abs (b - a).
Proof. lia. Qed.

Lemma move_swap (piece : Piece) (position_from position_to : Position) :
  move piece position_from position_to = move piece position_to position_from.
Proof.
  destruct piece as [k c], position_from as [fx fy], position_to as [tx ty].
  unfold move, Queen_move, King_move, Rook_move, Knight_move, Bishop_move,
    Pawn_move; simpl.
  rewrite (abs_sub_swap fx tx), (abs_sub_swap fy ty), (Z.eqb_sym fx tx),
    (Z.eqb_sym fy ty).
  destruct k; reflexivity.
Qed.

(** Every class but [Queen] decides exactly as the table says. *)
Lemma move_table (k : PieceKind) (c : string) (f t : Position) :
  k <> Queen ->
  exists verdict, move (mkPiece k c) f t = Return verdict /\
                  (verdict = true <-> Table.legal k f t).
Proof.
  intros Hk. destruct f as [fx fy], t as [tx ty].
  unfold move, Table.legal, Table.rook, Table.bishop, Table.dx, Table.dy,
    King_move, Rook_move, Knight_move, Bishop_move, Pawn_move; simpl.
  destruct k; try congruence; eexists; (split; [reflexivity|]).
  - rewrite andb_true_iff, !Z.leb_le. reflexivity.
  - rewrite orb_true_iff, !Z.eqb_eq. reflexivity.
  - rewrite Z.eqb_eq. reflexivity.
  - rewrite orb_true_iff, !andb_true_iff, !Z.eqb_eq. reflexivity.
  - rewrite andb_true_iff, !Z.eqb_eq. reflexivity.
Qed.

(** ** The properties *)

(** C1.  The pawn advance of the scenario is refused.  From the initial
    position, with white to move, the request of white to move the pawn at
    (6,4) to the empty cell (5,4) makes [Pawn.move] answer [False] (it wants
    the first coordinate kept and the second changed by one), [move_piece]
    raise "Invalid move!", and [Game.move] return [False] with the game as
    it was: white still to move, the pawn still at (6,4), (5,4) still
    empty. *)
Theorem pawn_advance_refused :
  get_piece_at Board_init (6, 4) = Return (Some (mkPiece Pawn "white")) /\
  get_piece_at Board_init (5, 4) = Return None /\
  Pawn_move (6, 4) (5, 4) = false /\
  fst (move_piece (6, 4) (5, 4) Board_init) = Raise IllegalGeometry /\
  Game_move Game_init "white" (6, 4) (5, 4) = (Return (Some false), Game_init).
Proof. repeat split. Qed.

(** C2, as stated, fails: on the initial board the white rook at (7,0) may
    take the black rook at (0,0) (same file, nothing checks the cells in
    between), and the board goes from 32 pieces to 31. *)
Lemma capture_lowers_count :
  fst (move_piece (7, 0) (0, 0) Board_init) = Return true /\
  count_occupants Board_init = 32%nat /\
  count_occupants (snd (move_piece (7, 0) (0, 0) Board_init)) = 31%nat.
Proof. repeat split. Qed.

(** C2, amended.  For every grid and every pair of positions, the number
    of pieces after [move_piece] plus the number of pieces it captured is
    the number before: the count is kept by every call that fails and by
    every move to an empty cell, and a move that succeeds onto an occupied
    cell lowers it by exactly one. *)
Theorem occupancy_accounting (position_from position_to : Position) (b : Board) :
  (count_occupants (snd (move_piece position_from position_to b))
   + captured position_from position_to b = count_occupants b)%nat /\
  (fst (move_piece position_from position_to b) <> Return true ->
   count_occupants (snd (move_piece position_from position_to b))
   = count_occupants b) /\
  (get_piece_at b position_to = Return None ->
   count_occupants (snd (move_piece position_from position_to b))
   = count_occupants b) /\
  (fst (move_piece position_from position_to b) = Return true ->
   forall q, get_piece_at b position_to = Return (Some q) ->
   S (count_occupants (snd (move_piece position_from position_to b)))
   = count_occupants b).
Proof.
  pose proof (move_piece_count position_from position_to b) as H.
  unfold captured in *. split; [exact H|].
  repeat split.
  - intros Hf.
    destruct (fst (move_piece position_from position_to b)) as [[|]|];
      try congruence;
      destruct (get_piece_at b position_to) as [[?|]|]; lia.
  - intros Hto. rewrite Hto in H.
    destruct (fst (move_piece position_from position_to b)) as [[|]|]; lia.
  - intros Hs q Hto. rewrite Hs, Hto in H. lia.
Qed.

Lemma occupancy_accounting_witness :
  fst (move_piece (7, 1) (5, 2) Board_init) = Return true /\
  count_occupants (snd (move_piece (7, 1) (5, 2) Board_init))
  = count_occupants Board_init /\
  S (count_occupants (snd (move_piece (7, 0) (0, 0) Board_init)))
  = count_occupants Board_init.
Proof.
  split; [reflexivity|]. split.
  - apply (occupancy_accounting (7, 1) (5, 2) Board_init). reflexivity.
  - apply (occupancy_accounting (7, 0) (0, 0) Board_init)
      with (q := mkPiece Rook "black"); reflexivity.
Defined.

(** C3.  [get_piece_at] does not check its argument.  With the first
    coordinate -1 it returns the occupant of row 7, and with 8 it raises
    [IndexError], which is not the out-of-bounds failure of the board (and
    not an [HTTPException] at all, so [Game.move] does not turn it into
    [False]). *)
Theorem get_piece_at_unchecked :
  in_bounds (-1, 0) = false /\
  get_piece_at Board_init (-1, 0) = Return (Some (mkPiece Rook "white")) /\
  get_piece_at Board_init (-1, 0) = get_piece_at Board_init (7, 0) /\
  in_bounds (8, 0) = false /\
  get_piece_at Board_init (8, 0) = Raise IndexError /\
  IndexError <> OutOfBounds /\
  fst (Game_move Game_init "white" (-1, 0) (5, 0)) = Return (Some true) /\
  fst (Game_move Game_init "white" (8, 0) (5, 0)) = Raise IndexError.
Proof. repeat split. discriminate. Qed.

(** C4.  [move_piece] is atomic: for every grid and every pair of
    positions, a call that does not return [True] (it raised, for an empty
    source, a destination off the board, a piece of the same color there, a
    refusal or an error of the piece's rule, or an index out of range)
    leaves the grid exactly as it was. *)
Theorem move_piece_atomic (position_from position_to : Position) (b : Board) :
  fst (move_piece position_from position_to b) <> Return true ->
  snd (move_piece position_from position_to b) = b.
Proof. apply move_piece_unchanged. Qed.

Lemma move_piece_atomic_witness :
  fst (move_piece (7, 1) (5, 1) Board_init) = Raise IllegalGeometry /\
  snd (move_piece (7, 1) (5, 1) Board_init) = Board_init.
Proof.
  split; [reflexivity|].
  apply (move_piece_atomic (7, 1) (5, 1) Board_init).
  vm_compute. discriminate.
Defined.

Lemma serialize_row_same_kind (r r' : list Occupant) :
  Forall2 same_kind r r' -> serialize_row r = serialize_row r'.
Proof.
  rewrite !serialize_row_fmap.
  induction 1 as [|c c' r r' Hc _ IH]; csimpl; [reflexivity|].
  by rewrite (serialize_cell_same_kind _ _ Hc), IH.
Qed.

Lemma in_bounds_true (x y : Z) :
  0 <= x < 8 -> 0 <= y < 8 -> in_bounds (x, y) = true.
Proof.
  intros Hx Hy. unfold in_bounds.
  rewrite !andb_true_iff, !Z.leb_le, !Z.ltb_lt. lia.
Qed.

Lemma in_bounds_false (x y : Z) :
  ~ (0 <= x < 8 /\ 0 <= y < 8) -> in_bounds (x, y) = false.
Proof.
  intros H. destruct (in_bounds (x, y)) eqn:E; [|reflexivity].
  exfalso. apply H. unfold in_bounds in E.
  rewrite !andb_true_iff, !Z.leb_le, !Z.ltb_lt in E. lia.
Qed.

(** C5.  The game starts with white to move.  After any sequence of
    requests, a call of [Game.move] that returns [True] takes the game from
    white-to-move to black-to-move or from black-to-move to white-to-move,
    and a call with any other outcome leaves the game, board and player to
    move, as it was.  A request of a player who is not the one to move
    returns [False] with the game untouched, for every pair of positions,
    those on which [move_piece] would raise included. *)
Theorem turn_alternation :
  LightToMove Game_init /\
  forall (rqs : list Request) (player : string)
         (position_from position_to : Position),
    let g := run rqs Game_init in
    let out := Game_move g player position_from position_to in
    (fst out = Return (Some true) ->
     (LightToMove g /\ DarkToMove (snd out)) \/
     (DarkToMove g /\ LightToMove (snd out))) /\
    (fst out <> Return (Some true) -> snd out = g) /\
    (player <> current_player g -> out = (Return (Some false), g)).
Proof.
  split; [reflexivity|]. intros rqs player position_from position_to g out.
  assert (turn_inv g) as Hg by (apply run_turn_inv; left; reflexivity).
  repeat split.
  - apply Game_move_flips, Hg.
  - apply Game_move_unchanged.
  - apply Game_move_wrong_turn.
Qed.

Lemma turn_alternation_witness :
  DarkToMove (snd (Game_move Game_init "white" (7, 1) (5, 2))) /\
  LightToMove
    (snd (Game_move (run [("white", (7, 1), (5, 2))] Game_init)
                    "black" (0, 1) (2, 2))) /\
  Game_move Game_init "black" (0, 1) (2, 2) = (Return (Some false), Game_init).
Proof.
  destruct turn_alternation as [_ H]. split; [|split].
  - destruct (H [] "white" (7, 1) (5, 2)) as (Hflip & _ & _).
    destruct Hflip as [[_ Hd]|[Hd _]]; [reflexivity|exact Hd|discriminate Hd].
  - destruct (H [("white", (7, 1), (5, 2))] "black" (0, 1) (2, 2))
      as (Hflip & _ & _).
    destruct Hflip as [[Hl _]|[_ Hl]]; [reflexivity|discriminate Hl|exact Hl].
  - apply (H [] "black" (0, 1) (2, 2)). discriminate.
Defined.

(** C6.  [is_valid_move] checks the destination's bounds first, then the
    color of what stands there, then the piece's rule.  A destination with
    a coordinate outside [0,8) raises the out-of-bounds failure for every
    grid, every piece (none included) and every source; on the board, a
    piece of the mover's color at the destination raises the friendly-fire
    failure whatever the rule would say; and only with the destination
    empty or held by the other color is the answer the rule's. *)
Theorem is_valid_move_order (b : Board) (piece : Occupant)
    (position_from : Position) (x y : Z) :
  (~ (0 <= x < 8 /\ 0 <= y < 8) ->
   is_valid_move b piece position_from (x, y) = Raise OutOfBounds) /\
  (0 <= x < 8 /\ 0 <= y < 8 ->
   forall p q, piece = Some p ->
     get_piece_at b (x, y) = Return (Some q) -> color q = color p ->
     is_valid_move b piece position_from (x, y) = Raise FriendlyFire) /\
  (0 <= x < 8 /\ 0 <= y < 8 ->
   forall p, piece = Some p ->
     get_piece_at b (x, y) = Return None \/
     (exists q, get_piece_at b (x, y) = Return (Some q) /\ color q <> color p) ->
     is_valid_move b piece position_from (x, y) = move p position_from (x, y)).
Proof.
  repeat split.
  - intros H. unfold is_valid_move. by rewrite (in_bounds_false _ _ H).
  - intros [Hx Hy] p q -> Hq Hc. unfold is_valid_move.
    rewrite (in_bounds_true _ _ Hx Hy), Hq. simpl.
    rewrite Hc, String.eqb_refl. reflexivity.
  - intros [Hx Hy] p -> [Hn|(q & Hq & Hc)]; unfold is_valid_move;
      rewrite (in_bounds_true _ _ Hx Hy).
    + rewrite Hn. reflexivity.
    + rewrite Hq. simpl. apply String.eqb_neq in Hc. rewrite Hc. reflexivity.
Qed.

Lemma is_valid_move_order_witness :
  is_valid_move Board_init (Some (mkPiece Rook "white")) (7, 0) (8, 1)
  = Raise OutOfBounds /\
  is_valid_move Board_init (Some (mkPiece Rook "white")) (7, 0) (7, 1)
  = Raise FriendlyFire /\
  is_valid_move Board_init (Some (mkPiece Rook "white")) (7, 0) (5, 1)
  = Return false.
Proof.
  split; [|split].
  - apply (is_valid_move_order Board_init (Some (mkPiece Rook "white"))
             (7, 0) 8 1). lia.
  - apply (proj1 (proj2 (is_valid_move_order Board_init
             (Some (mkPiece Rook "white")) (7, 0) 7 1)))
      with (p := mkPiece Rook "white") (q := mkPiece Knight "white");
      [lia|reflexivity..].
  - rewrite (proj2 (proj2 (is_valid_move_order Board_init
               (Some (mkPiece Rook "white")) (7, 0) 5 1))
               ltac:(lia) (mkPiece Rook "white") eq_refl
               (or_introl eq_refl)).
    reflexivity.
Defined.

(** C7.  The queen's rule does not answer.  [Queen.move] builds a rook and a
    bishop without a color, which the constructor refuses, so for every
    color and every pair of positions it raises [TypeError] instead of the
    verdict of the table: the one-step advance (7,3) to (6,3), legal for a
    queen by the rook's rule, gets no [True].  (The other five classes follow
    the table, [move_table].) *)
Theorem Queen_move_raises :
  (forall (c : string) (position_from position_to : Position),
     move (mkPiece Queen c) position_from position_to = Raise TypeError) /\
  Table.legal Queen (7, 3) (6, 3) /\
  move (mkPiece Queen "white") (7, 3) (6, 3) <> Return true.
Proof.
  split; [reflexivity|]. split; [left; right; reflexivity|discriminate].
Qed.

(** C8.  [serialize_board] turns an 8x8 grid into 8 rows of 8 cells; the
    cell at row [i], column [j] is [None] when the grid's cell is empty and
    the class name of the piece otherwise; and two grids whose cells hold
    pieces of the same classes serialize alike whatever the colors. *)
Theorem serialize_board_grid (b : Board) :
  board_shape b ->
  length (serialize_board b) = 8%nat /\
  Forall (fun srow => length srow = 8%nat) (serialize_board b) /\
  (forall (i j : nat) (row : list Occupant) (c : Occupant),
     b !! i = Some row -> row !! j = Some c ->
     exists srow, serialize_board b !! i = Some srow /\
                  srow !! j = Some (match c with
                                    | Some p => Some (class_name (kind p))
                                    | None => None
                                    end)) /\
  (forall b' : Board,
     Forall2 (Forall2 same_kind) b b' ->
     serialize_board b' = serialize_board b).
Proof.
  intros [Hlen Hrows]. rewrite serialize_board_fmap. repeat split.
  - by rewrite length_fmap.
  - apply Forall_fmap. eapply Forall_impl; [exact Hrows|].
    intros row Hrow. simpl. by rewrite length_fmap.
  - intros i j row c Hrow Hc. exists (serialize_cell <$> row).
    rewrite !list_lookup_fmap, Hrow. simpl. rewrite Hc.
    split; [reflexivity|]. by destruct c.
  - intros b' Hb'. rewrite serialize_board_fmap.
    clear Hlen Hrows. induction Hb' as [|r r' b b' Hr _ IH]; csimpl;
      [reflexivity|].
    rewrite <- !serialize_row_fmap.
    by rewrite (serialize_row_same_kind _ _ Hr), IH.
Qed.

Lemma serialize_board_grid_witness :
  length (serialize_board Board_init) = 8%nat /\
  serialize_board Board_init !! 7%nat
  = Some [Some "Rook"; Some "Knight"; Some "Bishop"; Some "Queen";
          Some "King"; Some "Bishop"; Some "Knight"; Some "Rook"] /\
  serialize_board Board_init !! 3%nat = Some (replicate 8 None).
Proof.
  split; [|split; reflexivity].
  apply (serialize_board_grid Board_init). exact Board_init_shape.
Defined.

(** C9.  Every class's rule treats a move and its reverse alike: for every
    piece and every pair of positions, the rule accepts the move from the
    first to the second exactly when it accepts the move back. *)
Theorem move_symmetric (piece : Piece) (position_from position_to : Position) :
  move piece position_from position_to = Return true <->
  move piece position_to position_from = Return true.
Proof. by rewrite (move_swap piece position_from position_to). Qed.

(** C10.  No null move: for every grid and every position on the board
    whose cell holds a piece, [move_piece] from that position to itself
    raises the friendly-fire failure (the destination holds the mover) and
    leaves the grid as it was. *)
Theorem null_move_refused (b : Board) (x y : Z) (piece : Piece) :
  0 <= x < 8 -> 0 <= y < 8 ->
  get_piece_at b (x, y) = Return (Some piece) ->
  move_piece (x, y) (x, y) b = (Raise FriendlyFire, b).
Proof.
  intros Hx Hy Hp. rewrite move_piece_unfold, Hp.
  unfold is_valid_move. rewrite (in_bounds_true _ _ Hx Hy), Hp. simpl.
  rewrite String.eqb_refl. reflexivity.
Qed.

Lemma null_move_refused_witness :
  move_piece (7, 3) (7, 3) Board_init = (Raise FriendlyFire, Board_init).
Proof.
  apply (null_move_refused Board_init 7 3 (mkPiece Queen "white"));
    [lia|lia|reflexivity].
Defined.

(** ** What can be raised, and by whom *)

Lemma getitem_Raise {A : Type} (l : list A) i e :
  Py.getitem l i = Raise e -> e = IndexError.
Proof.
  unfold Py.getitem. destruct (Py.index (length l) i) as [n|].
  - destruct (l !! n); [discriminate|]. by intros [= <-].
  - by intros [= <-].
Qed.

Lemma get_piece_at_Raise b position e :
  get_piece_at b position = Raise e -> e = IndexError.
Proof.
  unfold get_piece_at.
  destruct (Py.getitem b (fst position)) as [row|e'] eqn:E; simpl.
  - apply getitem_Raise.
  - intros [= <-]. by apply getitem_Raise in E.
Qed.

Lemma move_Raise piece position_from position_to e :
  move piece position_from position_to = Raise e -> e = TypeError.
Proof.
  unfold move. destruct (kind piece); try discriminate.
  by intros [= <-].
Qed.

Lemma move_Queen piece position_from position_to :
  kind piece = Queen -> move piece position_from position_to = Raise TypeError.
Proof. unfold move. by intros ->. Qed.

Lemma is_valid_move_None b position_from position_to v :
  is_valid_move b None position_from position_to <> Return v.
Proof.
  unfold is_valid_move.
  destruct (in_bounds position_to); simpl; [|discriminate].
  destruct (get_piece_at b position_to) as [[q|]|]; discriminate.
Qed.

Lemma is_valid_move_Raise b p position_from position_to e :
  is_valid_move b (Some p) position_from position_to = Raise e ->
  e = OutOfBounds \/ e = FriendlyFire \/ e = IndexError \/ e = TypeError.
Proof.
  unfold is_valid_move.
  destruct (in_bounds position_to); simpl; [|intros [= <-]; auto].
  destruct (get_piece_at b position_to) as [[q|]|e'] eqn:E; simpl.
  - destruct (String.eqb (color q) (color p)).
    + intros [= <-]. auto.
    + intros H%move_Raise. auto.
  - intros H%move_Raise. auto.
  - intros [= <-]. apply get_piece_at_Raise in E. auto.
Qed.


(** When [move_piece] returns [True], and only then. *)
Lemma move_piece_true_iff position_from position_to b :
  fst (move_piece position_from position_to b) = Return true <->
  exists p, get_piece_at b position_from = Return (Some p) /\
            is_valid_move b (Some p) position_from position_to = Return true.
Proof.
  split.
  - rewrite move_piece_unfold.
    destruct (get_piece_at b position_from) as [[p|]|]; try discriminate.
    destruct (is_valid_move b (Some p) position_from position_to)
      as [[|]|] eqn:Hvalid; try discriminate.
    intros _. exists p. split; [reflexivity|exact Hvalid].
  - intros (p & Hfrom & Hvalid).
    destruct (move_piece_valid _ _ _ _ Hfrom Hvalid)
      as (d & i & j & row & i' & j' & row' & _ & _ & _ & _ & _ & _ & Hmove).
    by rewrite Hmove.
Qed.

Lemma move_piece_not_false position_from position_to b :
  fst (move_piece position_from position_to b) <> Return false.
Proof.
  destruct (get_piece_at b position_from) as [[p|]|] eqn:Hfrom;
    try (rewrite move_piece_unfold, Hfrom; discriminate).
  destruct (is_valid_move b (Some p) position_from position_to)
    as [[|]|] eqn:Hvalid;
    try (rewrite move_piece_unfold, Hfrom, Hvalid; discriminate).
  destruct (move_piece_valid _ _ _ _ Hfrom Hvalid)
    as (d & i & j & row & i' & j' & row' & _ & _ & _ & _ & _ & _ & Hmove).
  rewrite Hmove. discriminate.
Qed.

(** ** Reading the grid after a move *)

Lemma index_nonneg_inv (len : nat) (i : Z) (n : nat) :
  0 <= i -> Py.index len i = Some n -> n = Z.to_nat i.
Proof.
  intros Hi. unfold Py.index.
  destruct ((0 <=? i) && (i <? Z.of_nat len)); [by intros [= <-]|].
  destruct ((- Z.of_nat len <=? i) && (i <? 0)) eqn:E; [|discriminate].
  apply andb_prop in E as [_ E]. lia.
Qed.

Lemma at_cell_nonneg b position i j row :
  0 <= fst position -> 0 <= snd position ->
  at_cell b position i j row ->
  i = Z.to_nat (fst position) /\ j = Z.to_nat (snd position).
Proof.
  intros Hx Hy (Hi & _ & Hj).
  split; eapply index_nonneg_inv; eauto.
Qed.

(** One write, read back at any position that resolved before it. *)
Lemma cell_after_write b position k l rowk v i' j' row' w :
  at_cell b position k l rowk -> rowk !! l = Some v ->
  b !! i' = Some row' ->
  at_cell (<[i' := <[j' := w]> row']> b) position k l
          (if decide (i' = k) then <[j' := w]> rowk else rowk) /\
  (if decide (i' = k) then <[j' := w]> rowk else rowk) !! l
  = Some (if decide ((i', j') = (k, l)) then w else v).
Proof.
  intros Hc Hv Hrow'. split; [by apply at_cell_insert|].
  destruct (decide (i' = k)) as [->|Hk].
  - destruct (decide (j' = l)) as [->|Hl].
    + rewrite decide_True by done.
      apply list_lookup_insert_eq. eapply lookup_lt_Some; eauto.
    + rewrite decide_False by congruence.
      by rewrite list_lookup_insert_ne.
  - rewrite decide_False by congruence. exact Hv.
Qed.

(** A successful move in terms of cells: where the two positions resolve,
    what stood there, and the grid that results. *)
Lemma move_piece_cells b position_from position_to p :
  get_piece_at b position_from = Return (Some p) ->
  is_valid_move b (Some p) position_from position_to = Return true ->
  exists d i j row i' j' row',
    at_cell b position_from i j row /\ row !! j = Some (Some p) /\
    at_cell b position_to i' j' row' /\ row' !! j' = Some d /\
    (forall q, d = Some q -> color q <> color p) /\
    (i', j') <> (i, j) /\
    move_piece position_from position_to b =
      (Return true,
       <[i := <[j := None]> (if decide (i' = i)
                             then <[j' := Some p]> row else row)]>
         (<[i' := <[j' := Some p]> row']> b)).
Proof.
  intros Hfrom Hvalid.
  pose proof (is_valid_move_true _ _ _ _ Hvalid) as (_ & d & Hto & Hcol & _).
  pose proof Hfrom as (i & j & row & Hc & Hv)%get_piece_at_Return.
  pose proof Hto as (i' & j' & row' & Hc' & Hv')%get_piece_at_Return.
  exists d, i, j, row, i', j', row'.
  pose proof Hc as (_ & Hrow & _). pose proof Hc' as (_ & Hrow' & _).
  repeat split; try assumption; try apply Hc; try apply Hc'.
  - intros [= -> ->]. assert (row' = row) as -> by congruence.
    rewrite Hv in Hv'. injection Hv' as <-. by eapply Hcol.
  - rewrite move_piece_unfold, Hfrom, Hvalid.
    rewrite (set_piece_at_cell _ _ _ _ _ _ Hc').
    rewrite (set_piece_at_cell _ _ _ _ _ _
               (at_cell_insert _ _ _ _ _ _ _ _ (Some p) Hrow' Hc)).
    reflexivity.
Qed.

(** The grid after a successful move, read at any position that resolved
    before it. *)
Lemma get_after_move b position_from position_to p d i j row i' j' row'
    position k l rowk v :
  at_cell b position_from i j row -> row !! j = Some (Some p) ->
  at_cell b position_to i' j' row' -> row' !! j' = Some d ->
  at_cell b position k l rowk -> rowk !! l = Some v ->
  get_piece_at
    (<[i := <[j := None]> (if decide (i' = i)
                           then <[j' := Some p]> row else row)]>
       (<[i' := <[j' := Some p]> row']> b)) position
  = Return (if decide ((i, j) = (k, l)) then None
            else if decide ((i', j') = (k, l)) then Some p else v).
Proof.
  intros Hc Hp Hc' Hd Hk Hv.
  pose proof Hc as (_ & Hrow & _). pose proof Hc' as (_ & Hrow' & _).
  destruct (cell_after_write b position k l rowk v i' j' row' (Some p)
              Hk Hv Hrow') as [Hk1 Hv1].
  pose proof (at_cell_insert b position_from i j row i' j' row' (Some p)
                Hrow' Hc) as (_ & Hrow1 & _).
  destruct (cell_after_write _ position k l _ _ i j _ None Hk1 Hv1 Hrow1)
    as [Hk2 Hv2].
  apply get_piece_at_Return. eauto 6.
Qed.

Lemma get_piece_at_shape b (k l : nat) row v :
  b !! k = Some row -> row !! l = Some v ->
  get_piece_at b (Z.of_nat k, Z.of_nat l) = Return v.
Proof.
  intros Hrow Hv. apply get_piece_at_Return. exists k, l, row.
  split; [|exact Hv]. unfold at_cell. simpl.
  apply lookup_lt_Some in Hrow as Hk. apply lookup_lt_Some in Hv as Hl.
  rewrite !index_nonneg by lia. rewrite !Nat2Z.id. auto.
Qed.

Lemma get_piece_at_on_board b position :
  board_shape b -> on_board position ->
  exists c, get_piece_at b position = Return c.
Proof.
  intros [Hlen Hrows] [Hx Hy]. destruct position as [x y]. simpl in *.
  destruct (lookup_lt_is_Some_2 b (Z.to_nat x)) as [row Hrow]; [lia|].
  pose proof (Forall_lookup_1 _ _ _ _ Hrows Hrow) as Hr. simpl in Hr.
  destruct (lookup_lt_is_Some_2 row (Z.to_nat y)) as [c Hc]; [lia|].
  exists c. rewrite <- (Z2Nat.id x), <- (Z2Nat.id y) by lia.
  by eapply get_piece_at_shape.
Qed.

(** Two 8x8 grids that read alike on the board are the same grid. *)
Lemma board_ext (b1 b2 : Board) :
  board_shape b1 -> board_shape b2 ->
  (forall position, on_board position ->
                    get_piece_at b1 position = get_piece_at b2 position) ->
  b1 = b2.
Proof.
  intros [Hl1 Hr1] [Hl2 Hr2] H. apply list_eq. intros k.
  destruct (decide (k < 8)%nat) as [Hk|Hk].
  - destruct (lookup_lt_is_Some_2 b1 k) as [r1 E1]; [lia|].
    destruct (lookup_lt_is_Some_2 b2 k) as [r2 E2]; [lia|].
    rewrite E1, E2. f_equal.
    pose proof (Forall_lookup_1 _ _ _ _ Hr1 E1) as L1.
    pose proof (Forall_lookup_1 _ _ _ _ Hr2 E2) as L2. simpl in L1, L2.
    apply list_eq. intros l.
    destruct (decide (l < 8)%nat) as [Hl|Hl].
    + destruct (lookup_lt_is_Some_2 r1 l) as [v1 F1]; [lia|].
      destruct (lookup_lt_is_Some_2 r2 l) as [v2 F2]; [lia|].
      rewrite F1, F2.
      specialize (H (Z.of_nat k, Z.of_nat l)).
      rewrite (get_piece_at_shape _ _ _ _ _ E1 F1),
        (get_piece_at_shape _ _ _ _ _ E2 F2) in H.
      assert (Return v1 = Return v2) as [= ->]; [|reflexivity].
      apply H. unfold on_board. simpl. lia.
    + rewrite !lookup_ge_None_2 by lia. reflexivity.
  - rewrite !lookup_ge_None_2 by lia. reflexivity.
Qed.

Lemma in_bounds_on_board position :
  in_bounds position = true <-> on_board position.
Proof.
  destruct position as [x y]. unfold in_bounds, on_board. simpl.
  rewrite !andb_true_iff, !Z.leb_le, !Z.ltb_lt. tauto.
Qed.

Lemma is_valid_move_Return b p position_from position_to v :
  is_valid_move b (Some p) position_from position_to = Return v <->
  on_board position_to /\
  (get_piece_at b position_to = Return None \/
   exists q, get_piece_at b position_to = Return (Some q) /\
             color q <> color p) /\
  move p position_from position_to = Return v.
Proof.
  rewrite <- in_bounds_on_board. unfold is_valid_move. split.
  - destruct (in_bounds position_to); [|discriminate]. simpl.
    destruct (get_piece_at b position_to) as [[q|]|]; simpl; try discriminate.
    + destruct (String.eqb (color q) (color p)) eqn:E; [discriminate|].
      apply String.eqb_neq in E. eauto 7.
    + eauto.
  - intros (-> & [->|(q & -> & Hq)] & Hm); simpl; [exact Hm|].
    apply String.eqb_neq in Hq. by rewrite Hq.
Qed.

(** Where the pieces are after a move that succeeded from a position on
    the board. *)
Lemma move_piece_moves b position_from position_to :
  0 <= fst position_from -> 0 <= snd position_from ->
  fst (move_piece position_from position_to b) = Return true ->
  exists p,
    get_piece_at b position_from = Return (Some p) /\
    get_piece_at (snd (move_piece position_from position_to b)) position_to
    = Return (Some p) /\
    get_piece_at (snd (move_piece position_from position_to b)) position_from
    = Return None /\
    forall position v,
      0 <= fst position -> 0 <= snd position ->
      position <> position_from -> position <> position_to ->
      get_piece_at b position = Return v ->
      get_piece_at (snd (move_piece position_from position_to b)) position
      = Return v.
Proof.
  intros Hfx Hfy (p & Hfrom & Hvalid)%move_piece_true_iff.
  destruct (move_piece_cells _ _ _ _ Hfrom Hvalid)
    as (d & i & j & row & i' & j' & row' &
        Hc & Hp & Hc' & Hd & _ & Hne & Hmove).
  apply is_valid_move_Return in Hvalid as ([Htx Hty] & _ & _).
  destruct (at_cell_nonneg _ _ _ _ _ Hfx Hfy Hc) as [Hi Hj].
  destruct (at_cell_nonneg _ _ _ _ _ (proj1 Htx) (proj1 Hty) Hc')
    as [Hi' Hj'].
  rewrite Hmove. simpl. exists p. split; [exact Hfrom|]. repeat split.
  - rewrite (get_after_move _ _ _ _ _ _ _ _ _ _ _ _ _ _ _ _
               Hc Hp Hc' Hd Hc' Hd).
    rewrite decide_False by congruence. by rewrite decide_True.
  - rewrite (get_after_move _ _ _ _ _ _ _ _ _ _ _ _ _ _ _ _
               Hc Hp Hc' Hd Hc Hp).
    by rewrite decide_True.
  - intros position v Hx Hy Hnf Hnt (k & l & rowk & Hk & Hv)%get_piece_at_Return.
    destruct (at_cell_nonneg _ _ _ _ _ Hx Hy Hk) as [Hk' Hl'].
    rewrite (get_after_move _ _ _ _ _ _ _ _ _ _ _ _ _ _ _ _
               Hc Hp Hc' Hd Hk Hv).
    destruct position as [x y], position_from as [fx fy],
      position_to as [tx ty]. simpl in *.
    rewrite !decide_False; [reflexivity| |].
    + intros [= E1 E2]. apply Hnt. f_equal; lia.
    + intros [= E1 E2]. apply Hnf. f_equal; lia.
Qed.

(** ** More of what the code does *)

(** X1.  When [move_piece] succeeds from a position with non-negative
    coordinates, the destination then holds the piece that stood at the
    source, the source is empty, and every other position with non-negative
    coordinates reads as before. *)
Theorem move_piece_effect (b : Board) (position_from position_to : Position) :
  0 <= fst position_from -> 0 <= snd position_from ->
  fst (move_piece position_from position_to b) = Return true ->
  exists p,
    get_piece_at b position_from = Return (Some p) /\
    get_piece_at (snd (move_piece position_from position_to b)) position_to
    = Return (Some p) /\
    get_piece_at (snd (move_piece position_from position_to b)) position_from
    = Return None /\
    forall position v,
      0 <= fst position -> 0 <= snd position ->
      position <> position_from -> position <> position_to ->
      get_piece_at b position = Return v ->
      get_piece_at (snd (move_piece position_from position_to b)) position
      = Return v.
Proof. apply move_piece_moves. Qed.

Lemma move_piece_effect_witness :
  get_piece_at (snd (move_piece (7, 1) (5, 2) Board_init)) (5, 2)
  = Return (Some (mkPiece Knight "white")) /\
  get_piece_at (snd (move_piece (7, 1) (5, 2) Board_init)) (7, 1)
  = Return None /\
  get_piece_at (snd (move_piece (7, 1) (5, 2) Board_init)) (0, 4)
  = Return (Some (mkPiece King "black")).
Proof.
  destruct (move_piece_effect Board_init (7, 1) (5, 2))
    as (p & Hp & Hto & Hfrom & Hrest);
    [simpl; lia|simpl; lia|reflexivity|].
  injection Hp as <-. split; [exact Hto|]. split; [exact Hfrom|].
  apply Hrest; [simpl; lia|simpl; lia|discriminate|discriminate|reflexivity].
Defined.

(** X2.  A move that went to an empty cell can be taken back: on an 8x8
    grid, after [move_piece] succeeded from a position on the board to an
    empty cell, [move_piece] the other way succeeds too and gives back the
    grid the first call started from. *)
Theorem move_piece_undo (b : Board) (position_from position_to : Position) :
  board_shape b -> on_board position_from ->
  get_piece_at b position_to = Return None ->
  fst (move_piece position_from position_to b) = Return true ->
  move_piece position_to position_from
             (snd (move_piece position_from position_to b))
  = (Return true, b).
Proof.
  intros Hb [Hfx Hfy] Hempty Hmove.
  pose proof (move_piece_moves b _ _ (proj1 Hfx) (proj1 Hfy) Hmove)
    as (p & Hp & Hto1 & Hfrom1 & Hrest1).
  pose proof Hmove as (p' & Hp' & Hvalid)%move_piece_true_iff.
  assert (p' = p) as -> by congruence.
  apply is_valid_move_Return in Hvalid as ([Htx Hty] & _ & Hrule).
  set (b1 := snd (move_piece position_from position_to b)) in *.
  assert (fst (move_piece position_to position_from b1) = Return true)
    as Hback.
  { apply move_piece_true_iff. exists p. split; [exact Hto1|].
    apply is_valid_move_Return. split; [by split|]. split; [by left|].
    by rewrite move_swap. }
  pose proof (move_piece_moves b1 _ _ (proj1 Htx) (proj1 Hty) Hback)
    as (p2 & Hp2 & Hto2 & Hfrom2 & Hrest2).
  assert (p2 = p) as -> by congruence.
  assert (board_shape b1) as Hb1 by apply move_piece_shape, Hb.
  pose proof (move_piece_shape position_to position_from b1 Hb1) as Hb2.
  destruct (move_piece position_to position_from b1) as [r b2] eqn:E.
  simpl in *. subst r. f_equal.
  apply board_ext; [exact Hb2|exact Hb|].
  intros position [Hx Hy].
  destruct (decide (position = position_from)) as [->|Hnf];
    [by rewrite Hto2, Hp|].
  destruct (decide (position = position_to)) as [->|Hnt];
    [by rewrite Hfrom2, Hempty|].
  destruct (get_piece_at_on_board b position Hb (conj Hx Hy)) as [v Hv].
  rewrite Hv. apply Hrest2; try tauto. apply Hrest1; tauto.
Qed.

Lemma move_piece_undo_witness :
  move_piece (5, 2) (7, 1) (snd (move_piece (7, 1) (5, 2) Board_init))
  = (Return true, Board_init).
Proof.
  apply (move_piece_undo Board_init (7, 1) (5, 2)).
  - exact Board_init_shape.
  - unfold on_board. simpl. lia.
  - reflexivity.
  - reflexivity.
Defined.

(** X3.  [move_piece] returns [True] exactly when the source holds a
    piece, the destination is on the board, the destination is empty or
    holds a piece of another color, and the piece's own rule accepts the
    move.  Nothing else is looked at: not whose turn it is, not the cells in
    between. *)
Theorem move_piece_succeeds_iff (b : Board)
    (position_from position_to : Position) :
  fst (move_piece position_from position_to b) = Return true <->
  exists p,
    get_piece_at b position_from = Return (Some p) /\
    on_board position_to /\
    (get_piece_at b position_to = Return None \/
     exists q, get_piece_at b position_to = Return (Some q) /\
               color q <> color p) /\
    move p position_from position_to = Return true.
Proof.
  rewrite move_piece_true_iff.
  split; intros (p & Hp & H); exists p; (split; [exact Hp|]);
    by apply is_valid_move_Return.
Qed.

(** X4.  [move_piece] never returns [False]: it returns [True] or raises.
    So [Game.move] never falls off its end: it returns [True] or [False], or
    lets an exception through, and never returns [None]. *)
Theorem move_never_returns_none (g : Game) (player : string)
    (position_from position_to : Position) :
  fst (move_piece position_from position_to (board g)) <> Return false /\
  fst (Game_move g player position_from position_to) <> Return None.
Proof.
  pose proof (move_piece_not_false position_from position_to (board g)) as H.
  split; [exact H|]. unfold Game_move.
  destruct (String.eqb player (current_player g)); [|discriminate].
  destruct (move_piece position_from position_to (board g)) as [r b'].
  simpl in H. destruct r as [[|]|e]; try discriminate; [congruence|].
  destruct e; discriminate.
Qed.



(** X6.  [move_piece] raises the 404 "No piece at the specified position!"
    exactly when the source position reads as an empty cell. *)
Theorem empty_source_iff (b : Board) (position_from position_to : Position) :
  fst (move_piece position_from position_to b) = Raise EmptySource <->
  get_piece_at b position_from = Return None.
Proof.
  rewrite move_piece_unfold. split.
  - destruct (get_piece_at b position_from) as [[p|]|e] eqn:Hfrom;
      [|reflexivity|].
    + destruct (is_valid_move b (Some p) position_from position_to)
        as [[|]|e] eqn:Hvalid.
      * destruct (move_piece_valid _ _ _ _ Hfrom Hvalid)
          as (d & i & j & row & i' & j' & row' &
              _ & _ & _ & _ & _ & _ & Hmove).
        rewrite move_piece_unfold, Hfrom, Hvalid in Hmove.
        rewrite Hmove. discriminate.
      * discriminate.
      * simpl. intros [= ->].
        destruct (is_valid_move_Raise _ _ _ _ _ Hvalid)
          as [H | [H | [H | H]]]; discriminate H.
    + simpl. intros [= ->]. by apply get_piece_at_Raise in Hfrom.
  - intros ->. reflexivity.
Qed.

(** X7.  A queen cannot be moved.  Whenever the source holds a queen,
    [move_piece] raises, for every destination: out of bounds, friendly
    fire, [IndexError], or the [TypeError] of the queen's rule; the grid is
    unchanged. *)
Theorem queen_never_moves (b : Board) (position_from position_to : Position)
    (p : Piece) :
  get_piece_at b position_from = Return (Some p) ->
  kind p = Queen ->
  (exists e, fst (move_piece position_from position_to b) = Raise e /\
             (e = OutOfBounds \/ e = FriendlyFire \/
              e = IndexError \/ e = TypeError)) /\
  snd (move_piece position_from position_to b) = b.
Proof.
  intros Hfrom Hq.
  assert (exists e, fst (move_piece position_from position_to b) = Raise e /\
                    (e = OutOfBounds \/ e = FriendlyFire \/
                     e = IndexError \/ e = TypeError)) as He.
  { rewrite move_piece_unfold, Hfrom.
    destruct (is_valid_move b (Some p) position_from position_to)
      as [v|e] eqn:Hvalid.
    - apply is_valid_move_Return in Hvalid as (_ & _ & Hm).
      rewrite (move_Queen _ _ _ Hq) in Hm. discriminate.
    - exists e. split; [reflexivity|]. by eapply is_valid_move_Raise. }
  split; [exact He|]. apply move_piece_unchanged.
  destruct He as (e & -> & _). discriminate.
Qed.

Lemma queen_never_moves_witness :
  fst (move_piece (7, 3) (5, 3) Board_init) = Raise TypeError /\
  snd (move_piece (7, 3) (5, 3) Board_init) = Board_init.
Proof.
  split; [reflexivity|].
  apply (queen_never_moves Board_init (7, 3) (5, 3) (mkPiece Queen "white"));
    reflexivity.
Defined.

Lemma count_color_insert c b i j row old w :
  b !! i = Some row -> row !! j = Some old ->
  (count_color c (<[i := <[j := w]> row]> b) + of_color c old
   = count_color c b + of_color c w)%nat.
Proof.
  intros Hrow Hold. unfold count_color.
  pose proof (sum_list_with_insert (sum_list_with (of_color c)) b i row
                (<[j := w]> row) Hrow) as H1.
  pose proof (sum_list_with_insert (of_color c) row j old w Hold) as H2.
  lia.
Qed.

(** What a successful move does to the number of pieces of a color. *)
Lemma move_piece_count_color c b position_from position_to p :
  get_piece_at b position_from = Return (Some p) ->
  is_valid_move b (Some p) position_from position_to = Return true ->
  exists d, get_piece_at b position_to = Return d /\
            (forall q, d = Some q -> color q <> color p) /\
            (count_color c (snd (move_piece position_from position_to b))
             + of_color c d = count_color c b)%nat.
Proof.
  intros Hfrom Hvalid.
  destruct (move_piece_cells _ _ _ _ Hfrom Hvalid)
    as (d & i & j & row & i' & j' & row' &
        Hc & Hp & Hc' & Hd & Hcol & Hne & Hmove).
  pose proof Hc as (_ & Hrow & _). pose proof Hc' as (_ & Hrow' & _).
  exists d. split; [apply get_piece_at_Return; eauto 6|].
  split; [exact Hcol|]. rewrite Hmove. simpl.
  destruct (cell_after_write b position_from i j row (Some p) i' j' row'
              (Some p) Hc Hp Hrow') as [(_ & Hrow1 & _) Hp1].
  replace (if decide ((i', j') = (i, j)) then Some p else Some p)
    with (Some p) in Hp1 by (by destruct (decide ((i', j') = (i, j)))).
  pose proof (count_color_insert c b i' j' row' d (Some p) Hrow' Hd) as H1.
  pose proof (count_color_insert c _ i j _ (Some p) None Hrow1 Hp1) as H2.
  change (of_color c None) with 0%nat in H2. lia.
Qed.

(** X8.  No move takes a piece of the mover's own color off the board:
    whatever [move_piece] answers, the number of pieces of the color of the
    piece at the source is the same after the call; and no color ever has
    more pieces after a call than before. *)
Theorem mover_color_kept (b : Board) (position_from position_to : Position)
    (p : Piece) :
  get_piece_at b position_from = Return (Some p) ->
  count_color (color p) (snd (move_piece position_from position_to b))
  = count_color (color p) b /\
  forall c, (count_color c (snd (move_piece position_from position_to b))
             <= count_color c b)%nat.
Proof.
  intros Hfrom.
  destruct (is_valid_move b (Some p) position_from position_to)
    as [[|]|] eqn:Hvalid;
    try (rewrite move_piece_unfold, Hfrom, Hvalid; simpl; split; [done|lia]).
  split.
  - destruct (move_piece_count_color (color p) _ _ _ _ Hfrom Hvalid)
      as (d & _ & Hcol & Hcount).
    destruct d as [q|]; simpl in Hcount; [|lia].
    specialize (Hcol q eq_refl). apply String.eqb_neq in Hcol.
    rewrite Hcol in Hcount. lia.
  - intros c.
    destruct (move_piece_count_color c _ _ _ _ Hfrom Hvalid)
      as (d & _ & _ & Hcount). lia.
Qed.

Lemma mover_color_kept_witness :
  count_color "white" (snd (move_piece (7, 0) (0, 0) Board_init)) = 16%nat /\
  (count_color "black" (snd (move_piece (7, 0)%Z (0, 0)%Z Board_init))
   <= 16)%nat.
Proof.
  destruct (mover_color_kept Board_init (7, 0) (0, 0) (mkPiece Rook "white")
              eq_refl) as [Hw Hall].
  split; [exact Hw|exact (Hall "black")].
Defined.

Lemma move_piece_color_le c position_from position_to b :
  (count_color c (snd (move_piece position_from position_to b))
   <= count_color c b)%nat.
Proof.
  destruct (get_piece_at b position_from) as [[p|]|] eqn:Hfrom;
    try (rewrite move_piece_unfold, Hfrom; simpl; lia).
  destruct (is_valid_move b (Some p) position_from position_to)
    as [[|]|] eqn:Hvalid;
    try (rewrite move_piece_unfold, Hfrom, Hvalid; simpl; lia).
  destruct (move_piece_count_color c _ _ _ _ Hfrom Hvalid)
    as (d & _ & _ & Hcount). lia.
Qed.

Lemma Game_move_board g player position_from position_to :
  board (snd (Game_move g player position_from position_to)) = board g \/
  board (snd (Game_move g player position_from position_to))
  = snd (move_piece position_from position_to (board g)).
Proof.
  unfold Game_move.
  destruct (String.eqb player (current_player g)); [|by left].
  destruct (move_piece position_from position_to (board g)) as [r b'].
  right. destruct r as [[|]|e]; [| |destruct e]; reflexivity.
Qed.

(** X9.  Whatever requests were made since the game was created, the board
    is still 8 rows of 8 cells, it holds at most the 32 pieces it started
    with, at most 16 of them white and at most 16 black, and the player to
    move is "white" or "black". *)
Theorem reachable_game (rqs : list Request) :
  let g := run rqs Game_init in
  board_shape (board g) /\
  (count_occupants (board g) <= 32)%nat /\
  (count_color "white" (board g) <= 16)%nat /\
  (count_color "black" (board g) <= 16)%nat /\
  (current_player g = "white" \/ current_player g = "black").
Proof.
  simpl. split; [apply run_shape, Board_init_shape|].
  assert (forall (m : Board -> nat),
            (forall position_from position_to b,
               (m (snd (move_piece position_from position_to b)) <= m b)%nat) ->
            forall rqs g, (m (board (run rqs g)) <= m (board g))%nat) as Hmono.
  { intros m Hm. induction rqs0 as [|[[player f] t] rqs0 IH]; intros g;
      [reflexivity|].
    simpl. etransitivity; [apply IH|].
    destruct (Game_move_board g player f t) as [-> | ->];
      [reflexivity|apply Hm]. }
  split; [|split; [|split]].
  - apply (Hmono count_occupants).
    intros f t b. pose proof (move_piece_count f t b). lia.
  - apply (Hmono (count_color "white")). intros. apply move_piece_color_le.
  - apply (Hmono (count_color "black")). intros. apply move_piece_color_le.
  - apply (run_turn_inv rqs Game_init). by left.
Qed.

Lemma index_8 (x : Z) :
  Py.index 8 x = if decide (-8 <= x < 8) then Some (Z.to_nat (x mod 8))
                 else None.
Proof.
  unfold Py.index. change (Z.of_nat 8) with 8.
  destruct ((0 <=? x) && (x <? 8)) eqn:E1.
  - apply andb_prop in E1 as [H1 H2].
    rewrite decide_True by lia. rewrite Z.mod_small by lia. reflexivity.
  - destruct ((Z.opp 8 <=? x) && (x <? 0)) eqn:E2.
    + apply andb_prop in E2 as [H1 H2].
      rewrite decide_True by lia. do 2 f_equal.
      apply (Z.mod_unique x 8 (-1)); lia.
    + rewrite decide_False; [reflexivity|].
      apply andb_false_iff in E1, E2. lia.
Qed.

(** X10.  Reading an 8x8 grid with [get_piece_at]: a coordinate from -8 to
    -1 counts from the far edge, so any position with both coordinates in
    [-8,8) returns the content of the cell at the coordinates taken modulo
    8; any other position raises [IndexError]. *)
Theorem get_piece_at_indexing (b : Board) (position : Position) :
  board_shape b ->
  (indexable position ->
   (exists c, get_piece_at b position = Return c) /\
   get_piece_at b position
   = get_piece_at b (fst position mod 8, snd position mod 8)) /\
  (~ indexable position -> get_piece_at b position = Raise IndexError).
Proof.
  intros [Hlen Hrows]. destruct position as [x y].
  unfold indexable. simpl. split.
  - intros [Hx Hy].
    destruct (lookup_lt_is_Some_2 b (Z.to_nat (x mod 8))) as [row Hrow];
      [pose proof (Z.mod_pos_bound x 8); lia|].
    pose proof (Forall_lookup_1 _ _ _ _ Hrows Hrow) as Hr. simpl in Hr.
    destruct (lookup_lt_is_Some_2 row (Z.to_nat (y mod 8))) as [c Hc];
      [pose proof (Z.mod_pos_bound y 8); lia|].
    assert (get_piece_at b (x, y) = Return c) as ->.
    { apply get_piece_at_Return.
      exists (Z.to_nat (x mod 8)), (Z.to_nat (y mod 8)), row.
      split; [|exact Hc]. unfold at_cell. simpl.
      rewrite Hlen, Hr, !index_8, !decide_True by lia. auto. }
    split; [eauto|]. symmetry.
    rewrite <- (Z2Nat.id (x mod 8)), <- (Z2Nat.id (y mod 8))
      by (apply Z.mod_pos_bound; lia).
    by eapply get_piece_at_shape.
  - intros Hn. unfold get_piece_at, Py.getitem. simpl.
    rewrite Hlen, index_8.
    destruct (decide (-8 <= x < 8)) as [Hx|Hx]; [|reflexivity].
    destruct (lookup_lt_is_Some_2 b (Z.to_nat (x mod 8))) as [row Hrow];
      [pose proof (Z.mod_pos_bound x 8); lia|].
    pose proof (Forall_lookup_1 _ _ _ _ Hrows Hrow) as Hr. simpl in Hr.
    rewrite Hrow. simpl. rewrite Hr, index_8.
    rewrite decide_False by tauto. reflexivity.
Qed.

Lemma get_piece_at_indexing_witness :
  get_piece_at Board_init (-1, -4) = get_piece_at Board_init (7, 4) /\
  get_piece_at Board_init (0, -9) = Raise IndexError.
Proof.
  split.
  - apply (get_piece_at_indexing Board_init (-1, -4) Board_init_shape).
    unfold indexable. simpl. lia.
  - apply (get_piece_at_indexing Board_init (0, -9) Board_init_shape).
    unfold indexable. simpl. lia.
Defined.

Lemma Game_move_true_iff g player position_from position_to :
  fst (Game_move g player position_from position_to) = Return (Some true) <->
  player = current_player g /\
  fst (move_piece position_from position_to (board g)) = Return true.
Proof.
  unfold Game_move.
  destruct (String.eqb player (current_player g)) eqn:E.
  - apply String.eqb_eq in E.
    destruct (move_piece position_from position_to (board g)) as [r b'].
    simpl. destruct r as [[|]|e]; simpl.
    + tauto.
    + split; [discriminate|intros [_ H]; discriminate H].
    + split; [destruct e; discriminate|intros [_ H]; discriminate H].
  - apply String.eqb_neq in E. simpl. split; [discriminate|tauto].
Qed.

Lemma validate_move_true_iff g player position_from position_to :
  validate_move g player position_from position_to = Return true <->
  exists p, get_piece_at (board g) position_from = Return (Some p) /\
            is_valid_move (board g) (Some p) position_from position_to
            = Return true.
Proof.
  unfold validate_move.
  destruct (get_piece_at (board g) position_from) as [[p|]|e]; simpl.
  - split.
    + intros H. exists p. split; [reflexivity|].
      destruct (is_valid_move (board g) (Some p) position_from position_to)
        as [v|e]; [exact H|destruct e; discriminate].
    + intros (p' & [= <-] & ->). reflexivity.
  - split; [|intros (p & H & _); discriminate H].
    pose proof (is_valid_move_None (board g) position_from position_to true)
      as Hn.
    destruct (is_valid_move (board g) None position_from position_to)
      as [v|e]; [congruence|destruct e; discriminate].
  - split; [destruct e; discriminate|intros (p & H & _); discriminate H].
Qed.

(** X11.  [Game.validate_move] says [True] exactly for the moves that
    [Game.move] would carry out for the player whose turn it is.  It does
    not look at the [player] it is given, so it also says [True] to a player
    whose request [Game.move] refuses for being out of turn. *)
Theorem validate_move_agrees (g : Game) (player : string)
    (position_from position_to : Position) :
  validate_move g player position_from position_to = Return true <->
  fst (Game_move g (current_player g) position_from position_to)
  = Return (Some true).
Proof.
  rewrite validate_move_true_iff, Game_move_true_iff, move_piece_true_iff.
  tauto.
Qed.

(** X12.  On an empty source cell the two entry points differ.  For a game
    whose board is 8x8 and a source that reads as empty, [Game.move] by the
    player to move returns [False]; [Game.validate_move] returns [False] only
    when the destination is off the board, and for a destination on the
    board it raises [AttributeError] (it asks [None] for its color or its
    rule). *)
Theorem validate_move_empty_source (g : Game) (player : string)
    (position_from position_to : Position) :
  board_shape (board g) ->
  get_piece_at (board g) position_from = Return None ->
  Game_move g (current_player g) position_from position_to
  = (Return (Some false), g) /\
  (on_board position_to ->
   validate_move g player position_from position_to = Raise AttributeError) /\
  (~ on_board position_to ->
   validate_move g player position_from position_to = Return false).
Proof.
  intros Hb Hfrom. split; [|split].
  - unfold Game_move. rewrite String.eqb_refl, move_piece_unfold, Hfrom.
    simpl. by destruct g.
  - intros Hto. unfold validate_move. rewrite Hfrom. simpl.
    unfold is_valid_move.
    rewrite (proj2 (in_bounds_on_board position_to) Hto). simpl.
    destruct (get_piece_at_on_board _ _ Hb Hto) as [[q|] ->]; reflexivity.
  - intros Hto. unfold validate_move. rewrite Hfrom. simpl.
    unfold is_valid_move.
    destruct (in_bounds position_to) eqn:E; [|reflexivity].
    by apply in_bounds_on_board in E.
Qed.

Lemma validate_move_empty_source_witness :
  fst (Game_move Game_init "white" (4, 4) (3, 4)) = Return (Some false) /\
  validate_move Game_init "white" (4, 4) (3, 4) = Raise AttributeError /\
  validate_move Game_init "white" (4, 4) (8, 4) = Return false.
Proof.
  split; [reflexivity|]. split.
  - apply (validate_move_empty_source Game_init "white" (4, 4) (3, 4)).
    + exact Board_init_shape.
    + reflexivity.
    + unfold on_board. simpl. lia.
  - apply (validate_move_empty_source Game_init "white" (4, 4) (8, 4)).
    + exact Board_init_shape.
    + reflexivity.
    + unfold on_board. simpl. lia.
Defined.

(** X13.  The rules look only at the displacement: shifting the source and
    the destination by the same amounts does not change the answer of any
    piece's rule. *)
Theorem move_translate (piece : Piece) (fx fy tx ty a c : Z) :
  move piece (fx + a, fy + c) (tx + a, ty + c) = move piece (fx, fy) (tx, ty).
Proof.
  unfold move, Queen_move, King_move, Rook_move, Knight_move, Bishop_move,
    Pawn_move. simpl.
  replace (fx + a - (tx + a)) with (fx - tx) by lia.
  replace (fy + c - (ty + c)) with (fy - ty) by lia.
  replace (fx + a =? tx + a) with (fx =? tx)
    by (destruct (Z.eqb_spec fx tx), (Z.eqb_spec (fx + a) (tx + a)); lia).
  replace (fy + c =? ty + c) with (fy =? ty)
    by (destruct (Z.eqb_spec fy ty), (Z.eqb_spec (fy + c) (ty + c)); lia).
  reflexivity.
Qed.

(** X14.  [Game.move] returns [True] exactly when the request comes from
    the player to move and [move_piece] succeeds; the board is then the one
    [move_piece] left.  The color of the piece moved plays no part: the
    player to move may move either side's pieces. *)
Theorem Game_move_succeeds_iff (g : Game) (player : string)
    (position_from position_to : Position) :
  (fst (Game_move g player position_from position_to) = Return (Some true) <->
   player = current_player g /\
   fst (move_piece position_from position_to (board g)) = Return true) /\
  (fst (Game_move g player position_from position_to) = Return (Some true) ->
   board (snd (Game_move g player position_from position_to))
   = snd (move_piece position_from position_to (board g))).
Proof.
  split; [apply Game_move_true_iff|].
  unfold Game_move.
  destruct (String.eqb player (current_player g)); [|discriminate].
  destruct (move_piece position_from position_to (board g)) as [r b'].
  destruct r as [[|]|e]; [reflexivity|discriminate|destruct e; discriminate].
Qed.

Lemma Game_move_succeeds_iff_witness :
  fst (Game_move Game_init "white" (0, 1) (2, 2)) = Return (Some true) /\
  get_piece_at Board_init (0, 1) = Return (Some (mkPiece Knight "black")) /\
  board (snd (Game_move Game_init "white" (0, 1) (2, 2)))
  = snd (move_piece (0, 1) (2, 2) Board_init).
Proof.
  split; [reflexivity|]. split; [reflexivity|].
  apply (Game_move_succeeds_iff Game_init "white" (0, 1) (2, 2)).
  reflexivity.
Defined.

(** The failures of [is_valid_move] for a piece, one by one. *)
Lemma is_valid_move_Raise_iff b p position_from position_to e :
  is_valid_move b (Some p) position_from position_to = Raise e <->
  (~ on_board position_to /\ e = OutOfBounds) \/
  (on_board position_to /\
   (get_piece_at b position_to = Raise e \/
    (exists q, get_piece_at b position_to = Return (Some q) /\
               color q = color p /\ e = FriendlyFire) \/
    ((get_piece_at b position_to = Return None \/
      exists q, get_piece_at b position_to = Return (Some q) /\
                color q <> color p) /\
     move p position_from position_to = Raise e))).
Proof.
  rewrite <- in_bounds_on_board. unfold is_valid_move.
  destruct (in_bounds position_to); simpl.
  - destruct (get_piece_at b position_to) as [[q|]|e'] eqn:Hto; simpl.
    + destruct (String.eqb (color q) (color p)) eqn:E.
      * apply String.eqb_eq in E. split.
        -- intros [= <-]. right. split; [done|]. right. left. eauto.
        -- intros [[H _]|[_ [H|[(q' & [= <-] & _ & ->)|[[H|(q' & [= <-] & H)] _]]]]];
             try done.
      * apply String.eqb_neq in E. split.
        -- intros H. right. split; [done|]. right. right. eauto.
        -- intros [[H _]|[_ [H|[(q' & [= <-] & H & _)|[_ H]]]]]; done.
    + split.
      * intros H. right. split; [done|]. right. right. eauto.
      * intros [[H _]|[_ [H|[(q' & H & _)|[_ H]]]]]; done.
    + split.
      * intros [= <-]. right. split; [done|]. by left.
      * intros [[H _]|[_ [[= <-]|[(q' & H & _)|[[H|(q' & H & _)] _]]]]];
          done.
  - split.
    + intros [= <-]. left. split; [discriminate|reflexivity].
    + intros [[_ ->]|[H _]]; [reflexivity|discriminate].
Qed.

Lemma move_piece_Raise_iff position_from position_to b e :
  fst (move_piece position_from position_to b) = Raise e <->
  get_piece_at b position_from = Raise e \/
  (get_piece_at b position_from = Return None /\ e = EmptySource) \/
  exists p, get_piece_at b position_from = Return (Some p) /\
            (is_valid_move b (Some p) position_from position_to = Raise e \/
             (is_valid_move b (Some p) position_from position_to
              = Return false /\ e = IllegalGeometry)).
Proof.
  destruct (get_piece_at b position_from) as [[p|]|e'] eqn:Hfrom.
  - destruct (is_valid_move b (Some p) position_from position_to)
      as [[|]|e'] eqn:Hvalid.
    + destruct (move_piece_valid _ _ _ _ Hfrom Hvalid)
        as (d & i & j & row & i' & j' & row' & _ & _ & _ & _ & _ & _ & Hmove).
      rewrite Hmove. simpl. split; [discriminate|].
      intros [H|[[H _]|(p' & [= <-] & [H|[H _]])]]; congruence.
    + rewrite move_piece_unfold, Hfrom, Hvalid. simpl. split.
      * intros [= <-]. right. right. exists p. auto.
      * intros [H|[[H _]|(p' & [= <-] & [H|[_ ->]])]]; congruence.
    + rewrite move_piece_unfold, Hfrom, Hvalid. simpl. split.
      * intros [= <-]. right. right. exists p. auto.
      * intros [H|[[H _]|(p' & [= <-] & [H|[H _]])]]; congruence.
  - rewrite move_piece_unfold, Hfrom. simpl. split.
    + intros [= <-]. right. left. auto.
    + intros [H|[[_ ->]|(p' & H & _)]]; congruence.
  - rewrite move_piece_unfold, Hfrom. simpl. split.
    + intros [= <-]. by left.
    + intros [H|[[H _]|(p' & H & _)]]; congruence.
Qed.

(** X15.  Which of its three 400 failures [move_piece] raises.  With a
    piece at the source: "Piece cannot move outside the board!" exactly when
    the destination is off the board; "There is a piece of the same color at
    the destination position!" exactly when the destination is on the board
    and holds a piece of the mover's color; "Invalid move!" exactly when the
    destination is on the board, empty or held by another color, and the
    piece's rule answers [False]. *)
Theorem move_piece_failures (b : Board) (position_from position_to : Position)
    (p : Piece) :
  get_piece_at b position_from = Return (Some p) ->
  (fst (move_piece position_from position_to b) = Raise OutOfBounds <->
   ~ on_board position_to) /\
  (fst (move_piece position_from position_to b) = Raise FriendlyFire <->
   on_board position_to /\
   exists q, get_piece_at b position_to = Return (Some q) /\
             color q = color p) /\
  (fst (move_piece position_from position_to b) = Raise IllegalGeometry <->
   on_board position_to /\
   (get_piece_at b position_to = Return None \/
    exists q, get_piece_at b position_to = Return (Some q) /\
              color q <> color p) /\
   move p position_from position_to = Return false).
Proof.
  intros Hfrom.
  assert (forall e,
            fst (move_piece position_from position_to b) = Raise e <->
            is_valid_move b (Some p) position_from position_to = Raise e \/
            (is_valid_move b (Some p) position_from position_to
             = Return false /\ e = IllegalGeometry)) as Hm.
  { intros e. rewrite move_piece_Raise_iff, Hfrom. split.
    - intros [H|[[H _]|(p' & [= <-] & H)]]; [discriminate H..|exact H].
    - intros H. right. right. eauto. }
  split; [|split]; rewrite Hm, is_valid_move_Raise_iff.
  - split.
    + intros [[[H _]|[_ [H|[(q & _ & _ & H)|[_ H]]]]]|[_ H]];
        try discriminate H; [exact H|..].
      * by apply get_piece_at_Raise in H.
      * by apply move_Raise in H.
    + intros H. left. left. auto.
  - split.
    + intros [[[_ H]|[Hto [H|[(q & Hq & Hc & _)|[_ H]]]]]|[_ H]];
        try discriminate H.
      * by apply get_piece_at_Raise in H.
      * eauto.
      * by apply move_Raise in H.
    + intros (Hto & q & Hq & Hc). left. right. split; [done|].
      right. left. eauto.
  - rewrite is_valid_move_Return. split.
    + intros [[[_ H]|[_ [H|[(q & _ & _ & H)|[_ H]]]]]|[H _]];
        try discriminate H.
      * by apply get_piece_at_Raise in H.
      * by apply move_Raise in H.
      * exact H.
    + intros H. right. auto.
Qed.

Lemma move_piece_failures_witness :
  fst (move_piece (7, 0) (8, 0) Board_init) = Raise OutOfBounds /\
  fst (move_piece (7, 0) (7, 1) Board_init) = Raise FriendlyFire /\
  fst (move_piece (7, 0) (5, 1) Board_init) = Raise IllegalGeometry.
Proof.
  split; [|split].
  - apply (move_piece_failures Board_init (7, 0) (8, 0)
             (mkPiece Rook "white") eq_refl).
    unfold on_board. simpl. lia.
  - apply (move_piece_failures Board_init (7, 0) (7, 1)
             (mkPiece Rook "white") eq_refl).
    split; [unfold on_board; simpl; lia|].
    exists (mkPiece Knight "white"). split; reflexivity.
  - apply (move_piece_failures Board_init (7, 0) (5, 1)
             (mkPiece Rook "white") eq_refl).
    split; [unfold on_board; simpl; lia|].
    split; [left|]; reflexivity.
Defined.

Lemma flip_turn g player position_from position_to :
  turn_inv g ->
  fst (Game_move g player position_from position_to) = Return (Some true) ->
  current_player (snd (Game_move g player position_from position_to))
  = if String.eqb (current_player g) "white" then "black" else "white".
Proof.
  intros Hg Hs.
  destruct (Game_move_flips _ _ _ _ Hg Hs) as [[Hl Hd]|[Hd Hl]];
    unfold LightToMove, DarkToMove in *.
  - by rewrite Hl, Hd.
  - by rewrite Hd, Hl.
Qed.

Lemma successes_parity rqs g :
  turn_inv g ->
  current_player (run rqs g)
  = if Nat.even (successes rqs g)
    then current_player g
    else if String.eqb (current_player g) "white" then "black" else "white".
Proof.
  revert g. induction rqs as [|[[player f] t] rqs IH]; intros g Hg;
    [reflexivity|].
  pose proof (Game_move_turn_inv g player f t Hg) as Hg'.
  change (run ((player, f, t) :: rqs) g)
    with (run rqs (snd (Game_move g player f t))).
  rewrite (IH _ Hg'). cbn [successes step].
  destruct (result_eq_dec_true (fst (Game_move g player f t))) as [Hs|Hf].
  - rewrite Hs. rewrite Nat.even_succ, <- Nat.negb_even.
    rewrite (flip_turn _ _ _ _ Hg Hs).
    destruct Hg as [Hl|Hd]; unfold LightToMove, DarkToMove in *.
    + rewrite Hl. simpl. by destruct (Nat.even _).
    + rewrite Hd. simpl. by destruct (Nat.even _).
  - rewrite (Game_move_unchanged _ _ _ _ Hf).
    destruct (fst (Game_move g player f t)) as [[[|]|]|]; try reflexivity.
    congruence.
Qed.

(** X16.  Turns alternate over a whole game: after any sequence of
    requests to a new game, white is to move if an even number of them were
    answered [True] and black if an odd number were; refused requests and
    requests that raised do not count. *)
Theorem turn_parity (rqs : list Request) :
  current_player (run rqs Game_init)
  = if Nat.even (successes rqs Game_init) then "white" else "black".
Proof.
  rewrite successes_parity by (left; reflexivity). reflexivity.
Qed.

(** ** Some positions of the opening *)

Example pawn_sideways_blocked :
  fst (move_piece (6, 4) (6, 5) Board_init) = Raise FriendlyFire.
Proof. reflexivity. Qed.

Example knight_jump :
  fst (Game_move Game_init "white" (7, 1) (5, 2)) = Return (Some true).
Proof. reflexivity. Qed.

Example queen_step_escapes :
  fst (Game_move Game_init "white" (7, 3) (5, 3)) = Raise TypeError.
Proof. reflexivity. Qed.
